(** * tbapy: the client facade of src/tbapy/main.py

    A shallow embedding of class [TBA]: the key normaliser [team_key], the
    request dispatcher [_fetch], the constructor and every endpoint method,
    followed by the properties the specification states about them.

    Python values are embedded as data, the [%] string formatting operator as
    a function on format strings, and the one effect of the class (an HTTP
    GET through [requests.get]) as a state-and-exception monad whose state
    holds the client object and the log of the requests issued so far. *)

From Stdlib Require Import ZArith String Ascii List Bool Lia.
From Stdlib Require Import DecimalString DecimalPos DecimalZ.
Import ListNotations.
Open Scope string_scope.
Open Scope Z_scope.

(** ** Python values passed to the facade *)

(** The arguments a caller passes: [None], a [bool], an [int] or a [str].
    Characters are the code points below 256. *)
Inductive pyval : Type :=
| PNone
| PBool (b : bool)
| PInt (n : Z)
| PStr (s : string).

(** Truth value testing, as in [if year:]. *)
Definition truthy (v : pyval) : bool :=
  match v with
  | PNone => false
  | PBool b => b
  | PInt n => negb (n =? 0)
  | PStr s => negb (s =? "")%string
  end.

(** [str(n)] for an [int]: decimal digits, a leading [-] when negative. *)
Definition str_of_int (n : Z) : string := NilZero.string_of_int (Z.to_int n).

(** The inverse reading, used to state that [str_of_int] is the decimal
    rendering. *)
Definition int_of_str (s : string) : option Z :=
  option_map Z.of_int (NilZero.int_of_string s).

(** [str(v)], which is what the [%s] conversion inserts. *)
Definition str (v : pyval) : string :=
  match v with
  | PNone => "None"
  | PBool true => "True"
  | PBool false => "False"
  | PInt n => str_of_int n
  | PStr s => s
  end.

(** [c.isdigit()] on one character of the modelled range: the ASCII digits
    and the three superscript digits of Latin-1 (U+00B2, U+00B3, U+00B9). *)
Definition char_isdigit (c : ascii) : bool :=
  let n := N.of_nat (nat_of_ascii c) in
  ((48 <=? n) && (n <=? 57) || (n =? 178) || (n =? 179) || (n =? 185))%N.

Fixpoint all_digits (s : string) : bool :=
  match s with
  | EmptyString => true
  | String c rest => char_isdigit c && all_digits rest
  end.

(** [s.isdigit()]: non-empty and every character a digit. *)
Definition isdigit (s : string) : bool :=
  match s with
  | EmptyString => false
  | _ => all_digits s
  end.

(** [v == 'literal']: only a [str] equals a [str]. *)
Definition eq_str (v : pyval) (lit : string) : bool :=
  match v with
  | PStr s => (s =? lit)%string
  | _ => false
  end.

(** ** Decoded JSON and the record wrappers *)

#[warnings="-register-all"]
Inductive json : Type :=
| JNull
| JBool (b : bool)
| JInt (n : Z)
| JFloat (literal : string)
| JStr (s : string)
| JList (items : list json)
| JDict (fields : list (string * json)).

(** The named wrappers imported from [.models]. *)
Inductive model : Set :=
| Team | Event | Match | Award | Media | Robot | District | DistrictRanking
| DistrictPoints | Insights | OPRs | Predictions | Rankings | Alliance
| Profile | Status.

(** Modelled from the spec: tbapy/models.py is not part of the sources. The
    specification describes every wrapper as the same generic container over
    one decoded JSON value, differing in name only, whose construction never
    fails whatever the shape of the value. *)
Record record : Type := wrap { model_of : model; backing : json }.

(** What a facade method hands back to its caller. *)
Inductive pyobj : Type :=
| ONone
| OJson (j : json)
| ORecord (r : record)
| ORecords (rs : list record).

(** ** Exceptions *)

Inductive failure : Set :=
| TransportFailure
| DecodeFailure.

Inductive exn : Type :=
| TypeError
| IndexError
| KeyError
| ValueError
| APIKeyError (arg : json)
| Propagated (f : failure).

Definition lift_map {A B : Type} (f : A -> B) (r : exn + A) : exn + B :=
  match r with
  | inl e => inl e
  | inr a => inr (f a)
  end.

(** ** The [%] operator *)

(** [fmt % args] for the conversions the source uses: [%s] consumes the next
    argument, [%%] is a literal percent sign. Too few arguments, or arguments
    left over, raise [TypeError] as in Python. No other conversion occurs in
    main.py; one is reported as [ValueError]. *)
Fixpoint format (fmt : string) (args : list pyval) : exn + string :=
  match fmt with
  | EmptyString =>
      match args with
      | [] => inr EmptyString
      | _ :: _ => inl TypeError
      end
  | String "%" (String "s" rest) =>
      match args with
      | [] => inl TypeError
      | a :: args' => lift_map (append (str a)) (format rest args')
      end
  | String "%" (String "%" rest) => lift_map (String "%") (format rest args)
  | String "%" _ => inl ValueError
  | String c rest => lift_map (String c) (format rest args)
  end.

(** [v[0]] on an argument value. *)
Definition first_char (v : pyval) : exn + string :=
  match v with
  | PStr (String c _) => inr (String c EmptyString)
  | PStr EmptyString => inl IndexError
  | _ => inl TypeError
  end.

(** [for raw in value]: a list yields its items, a dict its keys, a string
    its characters; nothing else is iterable. *)
Definition iterate (j : json) : exn + list json :=
  match j with
  | JList items => inr items
  | JDict fields => inr (map (fun kv => JStr (fst kv)) fields)
  | JStr s => inr (map (fun c => JStr (String c EmptyString)) (list_ascii_of_string s))
  | _ => inl TypeError
  end.

(** [[M(raw) for raw in value]]. *)
Definition wrap_each (m : model) (j : json) : exn + pyobj :=
  lift_map (fun items => ORecords (map (wrap m) items)) (iterate j).

Fixpoint lookup (k : string) (fields : list (string * json)) : option json :=
  match fields with
  | [] => None
  | (k', v) :: rest => if (k' =? k)%string then Some v else lookup k rest
  end.

Definition has_key (k : string) (fields : list (string * json)) : bool :=
  match lookup k fields with
  | Some _ => true
  | None => false
  end.

Definition is_str (k : string) (j : json) : bool :=
  match j with
  | JStr s => (s =? k)%string
  | _ => false
  end.

(** Modelled from the spec: the membership test [k in record] of the absent
    models.py. The wrapper forwards to its backing value: a mapping is asked
    for the key, a list (an ordered sequence) for an item equal to [k]; the
    specification gives a record no other backing shape, and the test is
    reported as [TypeError] there. *)
Definition contains (k : string) (r : record) : exn + bool :=
  match backing r with
  | JDict fields => inr (has_key k fields)
  | JList items => inr (existsb (is_str k) items)
  | _ => inl TypeError
  end.

(** Modelled from the spec: the subscript [record[k]] of the absent
    models.py. A mapping returns the field and fails on an absent one (the
    specification's lookup failure); a string is no index into anything
    else. *)
Definition getitem (r : record) (k : string) : exn + json :=
  match backing r with
  | JDict fields =>
      match lookup k fields with
      | Some v => inr v
      | None => inl KeyError
      end
  | _ => inl TypeError
  end.

(** ** The client object, the transport and the effect monad *)

(** An instance of class [TBA]: its two attributes. *)
Record TBA : Type := { URL_PRE : string; auth_key : string }.

(** The class attributes every new instance starts from. *)
Definition TBA_class : TBA :=
  {| URL_PRE := "https://www.thebluealliance.com/api/v3/"; auth_key := "" |}.

(** One call of [requests.get(url, headers=...)]. *)
Record request : Type := GET { url : string; headers : list (string * string) }.

(** What [get(...).json()] produces: the decoded body, or a failure of the
    transport or of the decoder, which the library lets through. *)
Inductive response : Type :=
| Decoded (j : json)
| Failed (f : failure).

(** The remote service: its answer may depend on the requests made before. *)
Definition network : Type := list request -> request -> response.

(** The state a method runs in: the object [self] and the requests issued so
    far, oldest first. *)
Record state : Type := { self : TBA; sent : list request }.

(** A computation returns a value or raises; the state survives a raise. *)
Definition M (A : Type) : Type := state -> (exn + A) * state.

Definition ret {A : Type} (a : A) : M A := fun st => (inr a, st).

Definition raise {A : Type} (e : exn) : M A := fun st => (inl e, st).

Definition bind {A B : Type} (m : M A) (k : A -> M B) : M B :=
  fun st =>
    match m st with
    | (inl e, st') => (inl e, st')
    | (inr a, st') => k a st'
    end.

Definition lift {A : Type} (r : exn + A) : M A :=
  match r with
  | inl e => raise e
  | inr a => ret a
  end.

Declare Scope py_scope.
Delimit Scope py_scope with py.
Notation "x <- m ;; k" := (bind m (fun x => k))
  (at level 61, m at next level, right associativity) : py_scope.
Notation "m ;;; k" := (bind m (fun _ => k))
  (at level 61, right associativity) : py_scope.
Open Scope py_scope.

(** The [%] operator as a step of a method body. *)
Definition fmt (f : string) (args : list pyval) : M string := lift (format f args).

(** [self.auth_key = k]. *)
Definition set_auth_key (k : string) : M unit :=
  fun st => (inr tt, {| self := {| URL_PRE := URL_PRE (self st); auth_key := k |};
                        sent := sent st |}).

(** ** The methods of class [TBA] *)

Section Client.

Variable net : network.

(** [get(self.URL_PRE + url, headers={'X-TBA-Auth-Key': self.auth_key}).json()] *)
Definition _fetch (url : string) : M json :=
  fun st =>
    let rq := GET (URL_PRE (self st) ++ url)
                  [("X-TBA-Auth-Key", auth_key (self st))] in
    let st' := {| self := self st; sent := sent st ++ [rq] |} in
    match net (sent st) rq with
    | Decoded j => (inr j, st')
    | Failed f => (inl (Propagated f), st')
    end.

(** [identifier if type(identifier) == str else 'frc%s' % identifier] *)
Definition team_key (identifier : pyval) : exn + string :=
  match identifier with
  | PStr s => inr s
  | _ => format "frc%s" [identifier]
  end.

(** [return Status(self._fetch('status'))] *)
Definition status : M record :=
  raw <- _fetch "status" ;; ret (wrap Status raw).

(** [return self._fetch(path)] *)
Definition fetch_raw (path : string) : M pyobj :=
  raw <- _fetch path ;; ret (OJson raw).

(** [return X(self._fetch(path))] *)
Definition fetch_one (m : model) (path : string) : M pyobj :=
  raw <- _fetch path ;; ret (ORecord (wrap m raw)).

(** [return [X(raw) for raw in self._fetch(path)]] *)
Definition fetch_each (m : model) (path : string) : M pyobj :=
  raw <- _fetch path ;; lift (wrap_each m raw).

Definition teams (page year keys : pyval) : M pyobj :=
  if truthy year then
    if truthy keys then
      p <- fmt "teams/%s/%s/keys" [year; page] ;; fetch_raw p
    else
      p <- fmt "teams/%s/%s" [year; page] ;; fetch_each Team p
  else
    if truthy keys then
      p <- fmt "teams/%s/keys" [page] ;; fetch_raw p
    else
      p <- fmt "teams/%s" [page] ;; fetch_each Team p.

Definition team (team simple : pyval) : M pyobj :=
  if truthy simple then
    k <- lift (team_key team) ;; p <- fmt "team/%s/simple" [PStr k] ;; fetch_one Team p
  else
    k <- lift (team_key team) ;; p <- fmt "team/%s" [PStr k] ;; fetch_one Team p.

Definition team_events (team year keys : pyval) : M pyobj :=
  if truthy year then
    if truthy keys then
      k <- lift (team_key team) ;;
      p <- fmt "team/%s/events/%s/keys" [PStr k; year] ;; fetch_raw p
    else
      k <- lift (team_key team) ;;
      p <- fmt "team/%s/events/%s" [PStr k; year] ;; fetch_each Event p
  else
    if truthy keys then
      k <- lift (team_key team) ;; p <- fmt "team/%s/events/keys" [PStr k] ;; fetch_raw p
    else
      k <- lift (team_key team) ;; p <- fmt "team/%s/events" [PStr k] ;; fetch_each Event p.

Definition team_awards (team year event : pyval) : M pyobj :=
  if truthy event then
    k <- lift (team_key team) ;;
    p <- fmt "team/%s/event/%s/awards" [PStr k; event] ;; fetch_each Award p
  else
    if truthy year then
      k <- lift (team_key team) ;;
      p <- fmt "team/%s/awards/%s" [PStr k; year] ;; fetch_each Award p
    else
      k <- lift (team_key team) ;; p <- fmt "team/%s/awards" [PStr k] ;; fetch_each Award p.

Definition team_matches (team event year keys : pyval) : M pyobj :=
  if truthy event then
    if truthy keys then
      k <- lift (team_key team) ;;
      p <- fmt "team/%s/event/%s/matches/keys" [PStr k; event] ;; fetch_raw p
    else
      k <- lift (team_key team) ;;
      p <- fmt "team/%s/event/%s/matches" [PStr k; event] ;; fetch_each Match p
  else if truthy year then
    if truthy keys then
      k <- lift (team_key team) ;;
      p <- fmt "team/%s/matches/%s/keys" [PStr k; year] ;; fetch_raw p
    else
      k <- lift (team_key team) ;;
      p <- fmt "team/%s/matches/%s" [PStr k; year] ;; fetch_each Match p
  else
    ret ONone.

Definition team_years (team : pyval) : M pyobj :=
  k <- lift (team_key team) ;; p <- fmt "team/%s/years_participated" [PStr k] ;; fetch_raw p.

Definition team_media (team year : pyval) : M pyobj :=
  k <- lift (team_key team) ;; p <- fmt "team/%s/media/%s" [PStr k; year] ;; fetch_each Media p.

Definition team_robots (team : pyval) : M pyobj :=
  k <- lift (team_key team) ;; p <- fmt "team/%s/robots" [PStr k] ;; fetch_each Robot p.

Definition team_districts (team : pyval) : M pyobj :=
  k <- lift (team_key team) ;; p <- fmt "team/%s/districts" [PStr k] ;; fetch_each District p.

(** The format string is passed to [_fetch] as it is: the source applies
    no [%] here. *)
Definition team_social_media (team : pyval) : M pyobj :=
  fetch_each Profile "team/%s/social_media".

Definition events (year keys simple : pyval) : M pyobj :=
  if truthy keys then
    p <- fmt "events/%s/keys" [year] ;; fetch_raw p
  else if truthy simple then
    p <- fmt "events/%s/simple" [year] ;; fetch_raw p
  else
    p <- fmt "events/%s" [year] ;; fetch_each Event p.

Definition event (event simple : pyval) : M pyobj :=
  if truthy simple then
    p <- fmt "event/%s/simple" [event] ;; fetch_one Event p
  else
    p <- fmt "event/%s" [event] ;; fetch_one Event p.

Definition event_alliances (event : pyval) : M pyobj :=
  p <- fmt "event/%s/alliances" [event] ;; fetch_each Alliance p.

Definition event_district_points (event : pyval) : M pyobj :=
  p <- fmt "event/%s/district_points" [event] ;; fetch_one DistrictPoints p.

Definition event_insights (event : pyval) : M pyobj :=
  p <- fmt "event/%s/insights" [event] ;; fetch_one Insights p.

Definition event_oprs (event : pyval) : M pyobj :=
  p <- fmt "event/%s/oprs" [event] ;; fetch_one OPRs p.

Definition event_predictions (event : pyval) : M pyobj :=
  p <- fmt "event/%s/predictions" [event] ;; fetch_one Predictions p.

Definition event_rankings (event : pyval) : M pyobj :=
  p <- fmt "event/%s/rankings" [event] ;; fetch_one Rankings p.

Definition event_teams (event keys : pyval) : M pyobj :=
  if truthy keys then
    p <- fmt "event/%s/teams/keys" [event] ;; fetch_raw p
  else
    p <- fmt "event/%s/teams" [event] ;; fetch_each Team p.

Definition event_awards (event : pyval) : M pyobj :=
  p <- fmt "event/%s/awards" [event] ;; fetch_each Award p.

Definition event_matches (event keys : pyval) : M pyobj :=
  if truthy keys then
    p <- fmt "event/%s/matches/keys" [event] ;; fetch_raw p
  else
    p <- fmt "event/%s/matches" [event] ;; fetch_each Match p.

(** [match] is a keyword here, hence the underscore. The tuple of the
    composed form is evaluated left to right: [event[0].isdigit()] first,
    so a missing or empty [event] raises before anything is requested. *)
Definition match_ (key year event type number round simple : pyval) : M pyobj :=
  if truthy key then
    p <- fmt "match/%s" [key] ;; fetch_one Match p
  else
    c <- lift (first_char event) ;;
    let y := if negb (isdigit c) then year else PStr "" in
    r <- (if negb (eq_str type "qm")
          then s <- fmt "m%s" [round] ;; ret (PStr s)
          else ret (PStr "")) ;;
    p <- fmt "match/%s%s_%s%s%s" [y; event; type; number; r] ;;
    fetch_one Match p.

Definition districts (year : pyval) : M pyobj :=
  p <- fmt "districts/%s" [year] ;; fetch_each District p.

Definition district_events (district keys : pyval) : M pyobj :=
  if truthy keys then
    p <- fmt "district/%s/events/keys" [district] ;; fetch_raw p
  else
    p <- fmt "district/%s/events" [district] ;; fetch_each Event p.

Definition district_rankings (district : pyval) : M pyobj :=
  p <- fmt "district/%s/rankings" [district] ;; fetch_each DistrictRanking p.

Definition district_teams (district year keys : pyval) : M pyobj :=
  if truthy keys then
    p <- fmt "district/%s/%s/teams/keys" [district; year] ;; fetch_raw p
  else
    p <- fmt "district/%s/%s/teams" [district; year] ;; fetch_each Team p.

(** [__init__]: store the key, fetch the status, refuse a key the service
    answers with an [Error] field. *)
Definition __init__ (key : string) : M unit :=
  set_auth_key key ;;;
  st <- status ;;
  found <- lift (contains "Error" st) ;;
  if found then
    msg <- lift (getitem st "Error") ;; raise (APIKeyError msg)
  else
    ret tt.

(** [TBA(key)]: a fresh instance carrying the class attributes is
    initialised; the caller receives it only when [__init__] returns. The
    second component is the request log afterwards. *)
Definition new_TBA (key : string) (history : list request)
  : (exn + TBA) * list request :=
  match __init__ key {| self := TBA_class; sent := history |} with
  | (inl e, st) => (inl e, sent st)
  | (inr _, st) => (inr (self st), sent st)
  end.

(** A call of one facade method with all its arguments (defaults written
    out by the caller). *)
Inductive call : Type :=
| call_status
| call_teams (page year keys : pyval)
| call_team (team simple : pyval)
| call_team_events (team year keys : pyval)
| call_team_awards (team year event : pyval)
| call_team_matches (team event year keys : pyval)
| call_team_years (team : pyval)
| call_team_media (team year : pyval)
| call_team_robots (team : pyval)
| call_team_districts (team : pyval)
| call_team_social_media (team : pyval)
| call_events (year keys simple : pyval)
| call_event (event simple : pyval)
| call_event_alliances (event : pyval)
| call_event_district_points (event : pyval)
| call_event_insights (event : pyval)
| call_event_oprs (event : pyval)
| call_event_predictions (event : pyval)
| call_event_rankings (event : pyval)
| call_event_teams (event keys : pyval)
| call_event_awards (event : pyval)
| call_event_matches (event keys : pyval)
| call_match (key year event type number round simple : pyval)
| call_districts (year : pyval)
| call_district_events (district keys : pyval)
| call_district_rankings (district : pyval)
| call_district_teams (district year keys : pyval).

Definition invoke (c : call) : M pyobj :=
  match c with
  | call_status => r <- status ;; ret (ORecord r)
  | call_teams page year keys => teams page year keys
  | call_team t simple => team t simple
  | call_team_events t year keys => team_events t year keys
  | call_team_awards t year e => team_awards t year e
  | call_team_matches t e year keys => team_matches t e year keys
  | call_team_years t => team_years t
  | call_team_media t year => team_media t year
  | call_team_robots t => team_robots t
  | call_team_districts t => team_districts t
  | call_team_social_media t => team_social_media t
  | call_events year keys simple => events year keys simple
  | call_event e simple => event e simple
  | call_event_alliances e => event_alliances e
  | call_event_district_points e => event_district_points e
  | call_event_insights e => event_insights e
  | call_event_oprs e => event_oprs e
  | call_event_predictions e => event_predictions e
  | call_event_rankings e => event_rankings e
  | call_event_teams e keys => event_teams e keys
  | call_event_awards e => event_awards e
  | call_event_matches e keys => event_matches e keys
  | call_match key year e type number round simple =>
      match_ key year e type number round simple
  | call_districts year => districts year
  | call_district_events d keys => district_events d keys
  | call_district_rankings d => district_rankings d
  | call_district_teams d year keys => district_teams d year keys
  end.

End Client.

(** ** Vocabulary of the properties *)

(** The request [_fetch] builds for a relative path on client [o]. *)
Definition get_for (o : TBA) (path : string) : request :=
  GET (URL_PRE o ++ path) [("X-TBA-Auth-Key", auth_key o)].

(** The client a successful construction with [key] hands out. *)
Definition client_of (key : string) : TBA :=
  {| URL_PRE := URL_PRE TBA_class; auth_key := key |}.

(** Running [m] from [st] issues exactly one request, the GET of [path]. *)
Definition requests {A : Type} (m : M A) (st : state) (path : string) : Prop :=
  sent (snd (m st)) = (sent st ++ [get_for (self st) path])%list.

(** [m] touches neither the client nor the network. *)
Definition pure {A : Type} (m : M A) : Prop :=
  forall st, exists r, m st = (r, st).

(** [m] either raises before it reaches the network, leaving the state as it
    was, or issues exactly one GET through [_fetch] and leaves the client
    object alone. *)
Definition fetches_once {A : Type} (m : M A) : Prop :=
  forall st,
    (exists e, m st = (inl e, st)) \/
    (exists r path,
        m st = (r, {| self := self st; sent := sent st ++ [get_for (self st) path] |})).

(** The one call shape that has no endpoint to go to: [team_matches] with
    neither an event nor a year. *)
Definition unscoped (c : call) : bool :=
  match c with
  | call_team_matches _ event year _ => negb (truthy event) && negb (truthy year)
  | _ => false
  end.

(** A caller's session: calls made one after another on the same client,
    whatever each returns or raises. *)
Fixpoint run_calls (net : network) (cs : list call) (st : state) : state :=
  match cs with
  | [] => st
  | c :: rest => run_calls net rest (snd (invoke net c st))
  end.

(** Every request of the list was built from client [o]: its URL extends the
    base URL and its only header is the stored key. *)
Definition built_from (o : TBA) (rqs : list request) : Prop :=
  Forall (fun rq => exists path, rq = get_for o path) rqs.

(** The reading of the specification's [teams/{page}[/{year}][/keys]] with a
    year given: page first, year second. *)
Definition teams_page_then_year (net : network) (st : state)
  (page year keys : pyval) : Prop :=
  truthy year = true ->
  requests (teams net page year keys) st
    ("teams/" ++ str page ++ "/" ++ str year
       ++ (if truthy keys then "/keys" else "")).

(** The specification's reading of "every facade call performs exactly one
    round-trip before returning". *)
Definition issues_exactly_one_get (net : network) (c : call) (st : state) : Prop :=
  forall v st', invoke net c st = (inr v, st') ->
    exists rq, sent st' = (sent st ++ [rq])%list.

(** A service that answers every request with an empty mapping, one that
    rejects the key, and a client state to run examples from. *)
Definition quiet_net : network := fun _ _ => Decoded (JDict []).

Definition rejecting_net : network :=
  fun _ _ => Decoded (JDict [("Error", JStr "X-TBA-Auth-Key is invalid")]).

Definition fresh_client : state :=
  {| self := {| URL_PRE := URL_PRE TBA_class; auth_key := "token" |}; sent := [] |}.

(** ** Calls with keyword arguments and the example script *)

(** The parameters of a method after [self], each with its default when it
    has one. *)
Definition signature : Type := list (string * option pyval).

Fixpoint keyword (name : string) (kwargs : list (string * pyval)) : option pyval :=
  match kwargs with
  | [] => None
  | (n, v) :: rest => if (n =? name)%string then Some v else keyword name rest
  end.

Definition declares (sig : signature) (kw : string * pyval) : bool :=
  existsb (fun p => (fst p =? fst kw)%string) sig.

Fixpoint fill (sig : signature) (kwargs : list (string * pyval)) : exn + list pyval :=
  match sig with
  | [] => inr []
  | (name, default) :: rest =>
      match keyword name kwargs, default with
      | Some v, _ => lift_map (cons v) (fill rest kwargs)
      | None, Some d => lift_map (cons d) (fill rest kwargs)
      | None, None => inl TypeError
      end
  end.

(** Binding a call made with keyword arguments only: a keyword the method
    does not declare is a [TypeError], and so is a parameter left without a
    value; every other parameter takes its keyword or its default. *)
Definition bind_keywords (sig : signature) (kwargs : list (string * pyval))
  : exn + list pyval :=
  if forallb (declares sig) kwargs then fill sig kwargs else inl TypeError.

(** [def match(self, key=None, year=None, event=None, type='qm', number=None,
    round=None, simple=False)] *)
Definition match_signature : signature :=
  [("key", Some PNone); ("year", Some PNone); ("event", Some PNone);
   ("type", Some (PStr "qm")); ("number", Some PNone); ("round", Some PNone);
   ("simple", Some (PBool false))].

(** [tba.match(name=value, ...)] *)
Definition match_keywords (net : network) (kwargs : list (string * pyval)) : M pyobj :=
  args <- lift (bind_keywords match_signature kwargs) ;;
  match args with
  | [key; year; event; type; number; round; simple] =>
      match_ net key year event type number round simple
  | _ => raise TypeError
  end.

(** The key src/example.py constructs its client with. *)
Definition example_key : string :=
  "TjUTfbPByPvqcFaMdEQVKPsd8R4m2TKIVHMoqf3Vya0kAdqx3DlwDQ5Sly4N2xJS".

(** src/example.py up to its first [print]: the client is constructed, a
    team, a team's districts and a match are fetched, and [report], the three
    [print] statements that end the script, receives what they returned. *)
Definition example (net : network) (report : pyobj -> pyobj -> pyobj -> M unit)
  (history : list request) : (exn + unit) * list request :=
  match new_TBA net example_key history with
  | (inl e, log) => (inl e, log)
  | (inr tba, log) =>
      let run :=
        (team <- team net (PInt 254) (PBool false) ;;
         districts <- team_districts net (PInt 1418) ;;
         match_ <- match_keywords net
                     [("year", PInt 2017); ("event", PStr "chcmp");
                      ("type", PStr "qm"); ("match", PInt 2)] ;;
         report team districts match_) {| self := tba; sent := log |} in
      (fst run, sent (snd run))
  end.

(** ** Vocabulary of the further properties *)

(** The three ways a method turns the decoded body into its result: as it
    is, wrapped in one record, or one record per item. *)
Inductive shaping : (json -> exn + pyobj) -> Prop :=
| shaping_raw : shaping (fun raw => inr (OJson raw))
| shaping_one (m : model) : shaping (fun raw => inr (ORecord (wrap m raw)))
| shaping_each (m : model) : shaping (wrap_each m).

(** The result of a method that requested [path] from state [st] and shapes
    the body with [k]. *)
Definition outcome (net : network) (st : state) (path : string)
  (k : json -> exn + pyobj) : (exn + pyobj) * state :=
  (match net (sent st) (get_for (self st) path) with
   | Decoded j => k j
   | Failed f => inl (Propagated f)
   end,
   {| self := self st; sent := (sent st ++ [get_for (self st) path])%list |}).

(** [match()] in its composed form with an [event] that has no first
    character to look at. *)
Definition match_without_event (c : call) : bool :=
  match c with
  | call_match key _ (PStr (String _ _)) _ _ _ _ => false
  | call_match key _ _ _ _ _ _ => negb (truthy key)
  | _ => false
  end.

(** The service answers [j] to whatever is requested next. *)
Definition answers (net : network) (st : state) (j : json) : Prop :=
  forall rq, net (sent st) rq = Decoded j.

(** Calls that hand the decoded body back as it is. *)
Definition returns_body (c : call) : bool :=
  match c with
  | call_teams _ _ keys | call_team_events _ _ keys | call_event_teams _ keys
  | call_event_matches _ keys | call_district_events _ keys
  | call_district_teams _ _ keys => truthy keys
  | call_team_matches _ event year keys => (truthy event || truthy year) && truthy keys
  | call_events _ keys simple => truthy keys || truthy simple
  | call_team_years _ => true
  | _ => false
  end.

(** Calls that wrap the body in a single record. *)
Definition returns_record (c : call) : bool :=
  match c with
  | call_status | call_team _ _ | call_event _ _ | call_event_district_points _
  | call_event_insights _ | call_event_oprs _ | call_event_predictions _
  | call_event_rankings _ => true
  | call_match _ _ _ _ _ _ _ => negb (match_without_event c)
  | _ => false
  end.

(** Calls that build one record per item of the body. *)
Definition returns_records (c : call) : bool :=
  match c with
  | call_teams _ _ keys | call_team_events _ _ keys | call_event_teams _ keys
  | call_event_matches _ keys | call_district_events _ keys
  | call_district_teams _ _ keys => negb (truthy keys)
  | call_team_matches _ event year keys => (truthy event || truthy year) && negb (truthy keys)
  | call_events _ keys simple => negb (truthy keys) && negb (truthy simple)
  | call_team_awards _ _ _ | call_team_media _ _ | call_team_robots _
  | call_team_districts _ | call_team_social_media _ | call_event_alliances _
  | call_event_awards _ | call_districts _ | call_district_rankings _ => true
  | _ => false
  end.

(** The team argument of a team-scoped call replaced by [t]. *)
Definition with_team (t : pyval) (c : call) : call :=
  match c with
  | call_team _ simple => call_team t simple
  | call_team_events _ year keys => call_team_events t year keys
  | call_team_awards _ year event => call_team_awards t year event
  | call_team_matches _ event year keys => call_team_matches t event year keys
  | call_team_years _ => call_team_years t
  | call_team_media _ year => call_team_media t year
  | call_team_robots _ => call_team_robots t
  | call_team_districts _ => call_team_districts t
  | call_team_social_media _ => call_team_social_media t
  | _ => c
  end.

(** The year argument of the calls that test it ([if year:]) replaced. *)
Definition with_year (y : pyval) (c : call) : call :=
  match c with
  | call_teams page _ keys => call_teams page y keys
  | call_team_events t _ keys => call_team_events t y keys
  | call_team_awards t _ event => call_team_awards t y event
  | call_team_matches t event _ keys => call_team_matches t event y keys
  | _ => c
  end.

(** A service that is down. *)
Definition failing_net : network := fun _ _ => Failed TransportFailure.

(** ** Lemmas on the monad and the dispatcher *)

Lemma fetch_raw_state net path st :
  snd (fetch_raw net path st)
  = {| self := self st; sent := sent st ++ [get_for (self st) path] |}.
Proof.
  unfold fetch_raw, bind, _fetch, get_for.
  destruct (net (sent st) _); reflexivity.
Qed.

Lemma fetch_one_state net m path st :
  snd (fetch_one net m path st)
  = {| self := self st; sent := sent st ++ [get_for (self st) path] |}.
Proof.
  unfold fetch_one, bind, _fetch, get_for.
  destruct (net (sent st) _); reflexivity.
Qed.

Lemma fetch_each_state net m path st :
  snd (fetch_each net m path st)
  = {| self := self st; sent := sent st ++ [get_for (self st) path] |}.
Proof.
  unfold fetch_each, bind, _fetch, get_for.
  destruct (net (sent st) _) as [j | f]; [ | reflexivity ].
  destruct (wrap_each m j); reflexivity.
Qed.

Lemma pure_ret {A : Type} (a : A) : pure (ret a).
Proof. intros st. exists (inr a). reflexivity. Qed.

Lemma pure_lift {A : Type} (r : exn + A) : pure (lift r).
Proof. intros st. exists r. destruct r; reflexivity. Qed.

Lemma pure_fmt f args : pure (fmt f args).
Proof. apply pure_lift. Qed.

Lemma pure_bind {A B : Type} (m : M A) (k : A -> M B) :
  pure m -> (forall a, pure (k a)) -> pure (bind m k).
Proof.
  intros Hm Hk st. unfold bind.
  destruct (Hm st) as [[e | a] ->].
  - exists (inl e). reflexivity.
  - apply Hk.
Qed.

Lemma fetches_once_bind {A B : Type} (m : M A) (k : A -> M B) :
  pure m -> (forall a, fetches_once (k a)) -> fetches_once (bind m k).
Proof.
  intros Hm Hk st. unfold bind.
  destruct (Hm st) as [[e | a] ->].
  - left. exists e. reflexivity.
  - apply Hk.
Qed.

Lemma fetches_once_fetch {A : Type} net path (k : json -> exn + A) :
  fetches_once (bind (_fetch net path) (fun raw => lift (k raw))).
Proof.
  intros st. right. unfold bind, _fetch, get_for.
  destruct (net (sent st) _) as [j | f].
  - exists (k j), path. destruct (k j); reflexivity.
  - exists (inl (Propagated f)), path. reflexivity.
Qed.

Lemma fetches_once_fetch_raw net path : fetches_once (fetch_raw net path).
Proof. apply (fetches_once_fetch net path (fun raw => inr (OJson raw))). Qed.

Lemma fetches_once_fetch_one net m path : fetches_once (fetch_one net m path).
Proof. apply (fetches_once_fetch net path (fun raw => inr (ORecord (wrap m raw)))). Qed.

Lemma fetches_once_fetch_each net m path : fetches_once (fetch_each net m path).
Proof. apply (fetches_once_fetch net path (wrap_each m)). Qed.

Lemma fetches_once_status net :
  fetches_once (bind (status net) (fun r => ret (ORecord r))).
Proof.
  intros st. right. unfold status, bind, _fetch, get_for.
  destruct (net (sent st) _) as [j | f].
  - exists (inr (ORecord (wrap Status j))), "status". reflexivity.
  - exists (inl (Propagated f)), "status". reflexivity.
Qed.

Create HintDb facade.
#[local] Hint Resolve pure_ret pure_lift pure_fmt
  fetches_once_fetch_raw fetches_once_fetch_one fetches_once_fetch_each
  fetches_once_status : facade.

(** Follows the shape of a method body: branch on the flags, step over the
    formatting, stop at the dispatcher. *)
Ltac facade_step :=
  match goal with
  | |- _ => solve [ auto with facade ]
  | |- fetches_once (if ?b then _ else _) => destruct b
  | |- pure (if ?b then _ else _) => destruct b
  | |- fetches_once (bind _ _) => apply fetches_once_bind; [ | intros ? ]
  | |- pure (bind _ _) => apply pure_bind; [ | intros ? ]
  end.

(** Every call but the unscoped [team_matches] reaches the dispatcher at
    most once, and exactly once unless it raises first. *)
Lemma invoke_fetches_once net c :
  unscoped c = false -> fetches_once (invoke net c).
Proof.
  destruct c; intros Hc; cbn [invoke];
    try (unfold teams, team, team_events, team_awards, team_years, team_media,
           team_robots, team_districts, team_social_media, events, event,
           event_alliances, event_district_points, event_insights, event_oprs,
           event_predictions, event_rankings, event_teams, event_awards,
           event_matches, match_, districts, district_events,
           district_rankings, district_teams;
         solve [ repeat facade_step ]).
  (* team_matches with an event or a year *)
  revert Hc. cbn [unscoped]. unfold team_matches.
  repeat match goal with
         | |- context [truthy ?v] => destruct (truthy v)
         end;
    intros Hc; try discriminate Hc; repeat facade_step.
Qed.

(** The unscoped [team_matches] is pure. *)
Lemma invoke_unscoped net c st :
  unscoped c = true -> invoke net c st = (inr ONone, st).
Proof.
  destruct c; cbn [unscoped]; try discriminate.
  intros Hc. apply andb_prop in Hc as [He Hy].
  apply negb_true_iff in He, Hy.
  cbn [invoke]. unfold team_matches. rewrite He, Hy. reflexivity.
Qed.

(** ** The key normaliser *)

Lemma append_empty_r (s : string) : s ++ "" = s.
Proof. induction s as [ | c s IH ]; cbn; [ reflexivity | now rewrite IH ]. Qed.

Lemma int_of_str_of_int (n : Z) : int_of_str (str_of_int n) = Some n.
Proof.
  unfold int_of_str, str_of_int.
  rewrite NilZero.isi.
  - cbn [option_map]. now rewrite DecimalZ.of_to.
  - destruct n; cbn [Z.to_int]; try discriminate.
    intros H. injection H as H. now apply Unsigned.to_uint_nonnil in H.
  - destruct n; cbn [Z.to_int]; try discriminate.
    intros H. injection H as H. now apply Unsigned.to_uint_nonnil in H.
Qed.

(** C6. For every integer [n] the key normaliser returns ['frc'] followed by
    the decimal rendering of [n] (a rendering that reads back as [n], so no
    range of [n] is treated specially), and for every string [s] it returns
    [s] unchanged, whatever [s] looks like. It never raises on either. *)
Theorem team_key_normalises :
  (forall n : Z, team_key (PInt n) = inr ("frc" ++ str_of_int n))
  /\ (forall n : Z, int_of_str (str_of_int n) = Some n)
  /\ team_key (PInt 254) = inr "frc254"
  /\ team_key (PInt (-7)) = inr "frc-7"
  /\ (forall s : string, team_key (PStr s) = inr s).
Proof.
  split; [ | split; [ | repeat split ] ].
  - intros n. cbn [team_key format lift_map str]. now rewrite append_empty_r.
  - apply int_of_str_of_int.
Qed.

(** ** Path construction *)

Lemma isdigit_one_char (c : ascii) :
  isdigit (String c EmptyString) = char_isdigit c.
Proof. cbn. apply andb_true_r. Qed.

Lemma match_composed_state net key year c ev type number round simple st :
  truthy key = false ->
  requests (match_ net key year (PStr (String c ev)) type number round simple) st
    ("match/" ++ (if char_isdigit c then "" else str year) ++ String c ev ++ "_"
       ++ str type ++ str number
       ++ (if eq_str type "qm" then "" else "m" ++ str round)).
Proof.
  intros Hkey. unfold requests, match_. rewrite Hkey.
  cbn [first_char lift bind ret]. rewrite isdigit_one_char.
  destruct (char_isdigit c), (eq_str type "qm");
    cbn [negb fmt format lift lift_map bind ret str];
    rewrite fetch_one_state, ?append_empty_r; reflexivity.
Qed.

(** C1. In the composed calling convention of [match()] (no direct key, an
    event key with a first character) the requested path is
    [match/<year><event>_<type><number>[m<round>]]: the year is left out
    exactly when the event key's first character is a digit, and [m<round>]
    is appended exactly when the type is not ['qm']. In particular
    [match(year=2017, event='chcmp', type='qm', number=2)] requests
    [match/2017chcmp_qm2], and type ['sf'], number 2, round 3 with an event
    key not starting with a digit requests [match/<year><event>_sf2m3]. *)
Theorem match_composed_path net st :
  (forall key year c ev type number round simple,
      truthy key = false ->
      requests (match_ net key year (PStr (String c ev)) type number round simple) st
        ("match/" ++ (if char_isdigit c then "" else str year) ++ String c ev ++ "_"
           ++ str type ++ str number
           ++ (if eq_str type "qm" then "" else "m" ++ str round)))
  /\ requests (match_ net PNone (PInt 2017) (PStr "chcmp") (PStr "qm") (PInt 2)
                 PNone (PBool false)) st
       "match/2017chcmp_qm2"
  /\ (forall year c ev,
         char_isdigit c = false ->
         requests (match_ net PNone year (PStr (String c ev)) (PStr "sf") (PInt 2)
                     (PInt 3) (PBool false)) st
           ("match/" ++ str year ++ String c ev ++ "_sf2m3")).
Proof.
  split; [ | split ].
  - intros. now apply match_composed_state.
  - apply (match_composed_state net PNone (PInt 2017) "c"%char "hcmp"); reflexivity.
  - intros year c ev Hc.
    pose proof (match_composed_state net PNone year c ev (PStr "sf") (PInt 2)
                  (PInt 3) (PBool false) st eq_refl) as H.
    rewrite Hc in H. exact H.
Qed.

Lemma match_composed_path_witness :
  requests (match_ quiet_net (PStr "") (PInt 2017) (PStr "2017chcmp") (PStr "f")
              (PInt 1) (PInt 2) (PBool true)) fresh_client
    "match/2017chcmp_f1m2"
  /\ requests (match_ quiet_net PNone (PInt 2016) (PStr "casj") (PStr "sf") (PInt 2)
                 (PInt 3) (PBool false)) fresh_client
       "match/2016casj_sf2m3".
Proof.
  split.
  - apply (proj1 (match_composed_path quiet_net fresh_client)
             (PStr "") (PInt 2017) "2"%char "017chcmp" (PStr "f") (PInt 1) (PInt 2)
             (PBool true)).
    reflexivity.
  - apply (proj2 (proj2 (match_composed_path quiet_net fresh_client))
             (PInt 2016) "c"%char "asj").
    reflexivity.
Defined.

Lemma teams_state net page year keys st :
  requests (teams net page year keys) st
    (if truthy year
     then "teams/" ++ str year ++ "/" ++ str page
            ++ (if truthy keys then "/keys" else "")
     else "teams/" ++ str page ++ (if truthy keys then "/keys" else "")).
Proof.
  unfold requests, teams.
  destruct (truthy year), (truthy keys);
    cbn [fmt format lift lift_map bind ret];
    rewrite ?fetch_raw_state, ?fetch_each_state, ?append_empty_r; reflexivity.
Qed.

(** C2, as the code has it. For every page [p], [teams(p)] requests
    [teams/{p}]; with a truthy year [y] the year segment comes first and the
    page segment second, [teams/{y}/{p}], with [/keys] appended when [keys]
    is true. *)
Theorem teams_year_then_page net st :
  (forall page, requests (teams net page PNone (PBool false)) st ("teams/" ++ str page))
  /\ (forall page year keys,
         truthy year = true ->
         requests (teams net page year keys) st
           ("teams/" ++ str year ++ "/" ++ str page
              ++ (if truthy keys then "/keys" else ""))).
Proof.
  split.
  - intros page. pose proof (teams_state net page PNone (PBool false) st) as H.
    cbn [truthy] in H. now rewrite append_empty_r in H.
  - intros page year keys Hy.
    pose proof (teams_state net page year keys st) as H.
    now rewrite Hy in H.
Qed.

Lemma teams_year_then_page_witness :
  requests (teams quiet_net (PInt 3) (PInt 2017) (PBool true)) fresh_client
    "teams/2017/3/keys".
Proof.
  apply (proj2 (teams_year_then_page quiet_net fresh_client)
           (PInt 3) (PInt 2017) (PBool true)).
  reflexivity.
Defined.

(** C2, as the specification words it, fails: [teams(0, year=2017)] requests
    [teams/2017/0], not [teams/0/2017]. *)
Lemma teams_page_then_year_fails :
  ~ teams_page_then_year quiet_net fresh_client (PInt 0) (PInt 2017) (PBool false).
Proof.
  intros H. specialize (H eq_refl).
  unfold requests in H. vm_compute in H. discriminate H.
Qed.

(** C3. For every team argument [t], [team_social_media(t)] does not pass
    [t] to any formatting: the path requested is the literal
    [team/%s/social_media], and the whole run is the same for any two team
    arguments. *)
Theorem team_social_media_ignores_team net st :
  (forall t, requests (team_social_media net t) st "team/%s/social_media")
  /\ (forall t t', team_social_media net t st = team_social_media net t' st).
Proof.
  split.
  - intros t. unfold requests, team_social_media.
    now rewrite fetch_each_state.
  - reflexivity.
Qed.

Lemma team_key_total (t : pyval) :
  team_key t = inr (match t with PStr s => s | _ => "frc" ++ str t end).
Proof.
  destruct t as [ | b | n | s ]; cbn [team_key format lift_map];
    rewrite ?append_empty_r; reflexivity.
Qed.

(** C5. For every team [t], truthy event [e] and year [y],
    [team_matches(t, event=e, year=y)] and [team_awards(t, event=e, year=y)]
    request the event-scoped path [team/{key}/event/{e}/...], and the whole
    run is the same whatever [y] is: the event scope wins over the year. *)
Theorem event_scope_over_year net st t e y keys :
  truthy e = true ->
  exists k,
    team_key t = inr k
    /\ requests (team_matches net t e y keys) st
         ("team/" ++ k ++ "/event/" ++ str e ++ "/matches"
            ++ (if truthy keys then "/keys" else ""))
    /\ requests (team_awards net t y e) st
         ("team/" ++ k ++ "/event/" ++ str e ++ "/awards")
    /\ (forall y', team_matches net t e y' keys st = team_matches net t e y keys st)
    /\ (forall y', team_awards net t y' e st = team_awards net t y e st).
Proof.
  intros He. eexists. split; [ apply team_key_total | ].
  unfold requests, team_matches, team_awards. rewrite He, team_key_total.
  repeat split.
  - destruct (truthy keys);
      cbn [fmt format lift lift_map bind ret str];
      rewrite ?fetch_raw_state, ?fetch_each_state, ?append_empty_r; reflexivity.
  - cbn [fmt format lift lift_map bind ret str].
    rewrite fetch_each_state. reflexivity.
Qed.

Lemma event_scope_over_year_witness :
  exists k,
    team_key (PInt 254) = inr k
    /\ requests (team_matches quiet_net (PInt 254) (PStr "chcmp") (PInt 2017)
                   (PBool false)) fresh_client
         ("team/" ++ k ++ "/event/" ++ str (PStr "chcmp") ++ "/matches"
            ++ (if truthy (PBool false) then "/keys" else ""))
    /\ requests (team_awards quiet_net (PInt 254) (PInt 2017) (PStr "chcmp"))
         fresh_client
         ("team/" ++ k ++ "/event/" ++ str (PStr "chcmp") ++ "/awards")
    /\ (forall y', team_matches quiet_net (PInt 254) (PStr "chcmp") y' (PBool false)
                     fresh_client
                   = team_matches quiet_net (PInt 254) (PStr "chcmp") (PInt 2017)
                       (PBool false) fresh_client)
    /\ (forall y', team_awards quiet_net (PInt 254) y' (PStr "chcmp") fresh_client
                   = team_awards quiet_net (PInt 254) (PInt 2017) (PStr "chcmp")
                       fresh_client).
Proof.
  apply (event_scope_over_year quiet_net fresh_client (PInt 254) (PStr "chcmp")
           (PInt 2017) (PBool false)).
  reflexivity.
Defined.

(** C9. For every team [t], when event and year are both absent or falsy,
    [team_matches(t)] returns [None] and issues no request: the state it
    leaves is the state it found. *)
Theorem team_matches_unscoped_returns_none net t e y keys st :
  truthy e = false -> truthy y = false ->
  team_matches net t e y keys st = (inr ONone, st).
Proof.
  intros He Hy. unfold team_matches. now rewrite He, Hy.
Qed.

Lemma team_matches_unscoped_returns_none_witness :
  team_matches quiet_net (PInt 254) PNone PNone (PBool false) fresh_client
  = (inr ONone, fresh_client).
Proof.
  apply (team_matches_unscoped_returns_none quiet_net (PInt 254) PNone PNone
           (PBool false) fresh_client); reflexivity.
Defined.

(** C10. The [simple] parameter of [match()] has no effect: with the other
    arguments fixed, any two values of [simple] give the same request and
    the same result. *)
Theorem match_simple_has_no_effect net key year e type number round st :
  (forall simple simple',
      match_ net key year e type number round simple st
      = match_ net key year e type number round simple' st)
  /\ match_ net key year e type number round (PBool true) st
     = match_ net key year e type number round (PBool false) st.
Proof. split; reflexivity. Qed.

(** ** Construction *)

Lemma has_key_lookup k fields :
  has_key k fields = true -> exists v, lookup k fields = Some v.
Proof.
  unfold has_key. destruct (lookup k fields) as [v | ]; [ | discriminate ].
  intros _. now exists v.
Qed.

(** How [TBA(key)] ends, by the answer to its status request. *)
Lemma new_TBA_cases net key history :
  let rq := get_for (client_of key) "status" in
  new_TBA net key history
  = (match net history rq with
     | Failed f => inl (Propagated f)
     | Decoded (JDict fields) =>
         match lookup "Error" fields with
         | Some msg => inl (APIKeyError msg)
         | None => inr (client_of key)
         end
     | Decoded (JList items) =>
         if existsb (is_str "Error") items then inl TypeError
         else inr (client_of key)
     | Decoded _ => inl TypeError
     end, (history ++ [rq])%list).
Proof.
  cbn zeta. unfold new_TBA, __init__, set_auth_key, status, bind, _fetch.
  cbn [self sent URL_PRE auth_key TBA_class client_of get_for].
  destruct (net history _) as [j | f]; [ | reflexivity ].
  destruct j as [ | b | n | l | s | items | fields ]; try reflexivity.
  - cbn [ret contains backing lift getitem].
    destruct (existsb (is_str "Error") items); reflexivity.
  - cbn [ret contains backing lift getitem]. unfold has_key.
    destruct (lookup "Error" fields); reflexivity.
Qed.

(** C4. Construction performs exactly one GET, to the status endpoint with
    the given key. It raises the API-key error if and only if the decoded
    status response is a mapping with an [Error] key (the error then carries
    that field); without the key it returns the client. Whatever happens,
    the status request is the only one issued, and a raise leaves the caller
    with an exception in place of a client. *)
Theorem construction_checks_status net key history :
  let rq := get_for (client_of key) "status" in
  snd (new_TBA net key history) = (history ++ [rq])%list
  /\ ((exists msg, fst (new_TBA net key history) = inl (APIKeyError msg))
      <-> (exists fields,
              net history rq = Decoded (JDict fields)
              /\ has_key "Error" fields = true))
  /\ (forall fields msg,
         net history rq = Decoded (JDict fields) ->
         lookup "Error" fields = Some msg ->
         fst (new_TBA net key history) = inl (APIKeyError msg))
  /\ (forall fields,
         net history rq = Decoded (JDict fields) ->
         has_key "Error" fields = false ->
         fst (new_TBA net key history) = inr (client_of key))
  /\ (forall e, fst (new_TBA net key history) = inl e ->
         forall o, fst (new_TBA net key history) <> inr o).
Proof.
  intros rq. rewrite (new_TBA_cases net key history). fold rq. cbn [fst snd].
  split; [ reflexivity | ]. split; [ | split; [ | split ] ].
  - split.
    + intros [msg H]. destruct (net history rq) as [j | f]; [ | discriminate H ].
      destruct j as [ | b | n | l | s | items | fields ]; try discriminate H.
      * destruct (existsb (is_str "Error") items); discriminate H.
      * exists fields. split; [ reflexivity | ]. unfold has_key.
        destruct (lookup "Error" fields); [ reflexivity | discriminate H ].
    + intros [fields [-> Hk]]. apply has_key_lookup in Hk as [v ->].
      now exists v.
  - intros fields msg -> ->. reflexivity.
  - intros fields -> Hk. unfold has_key in Hk.
    destruct (lookup "Error" fields); [ discriminate Hk | reflexivity ].
  - intros e -> o. discriminate.
Qed.

Lemma construction_checks_status_witness :
  fst (new_TBA rejecting_net "token" [])
  = inl (APIKeyError (JStr "X-TBA-Auth-Key is invalid"))
  /\ fst (new_TBA quiet_net "token" []) = inr (client_of "token").
Proof.
  split.
  - apply (proj1 (proj2 (proj2 (construction_checks_status rejecting_net "token" [])))
             [("Error", JStr "X-TBA-Auth-Key is invalid")]); reflexivity.
  - apply (proj1 (proj2 (proj2 (proj2 (construction_checks_status quiet_net "token" []))))
             []); reflexivity.
Defined.

(** ** One request per call, and the client left as it was *)

Lemma app_one_neq {A : Type} (l : list A) (x : A) : (l ++ [x])%list <> l.
Proof.
  intros H. apply (f_equal (@length A)) in H.
  rewrite length_app in H. cbn in H. lia.
Qed.

(** What any call does to the state: the client object is untouched and the
    log grows by the requests of the call, all built from that client. *)
Lemma invoke_frame net c st :
  self (snd (invoke net c st)) = self st
  /\ exists new,
      sent (snd (invoke net c st)) = (sent st ++ new)%list
      /\ built_from (self st) new
      /\ (length new <= 1)%nat.
Proof.
  destruct (unscoped c) eqn:Hc.
  - rewrite (invoke_unscoped net c st Hc). cbn [snd]. split; [ reflexivity | ].
    exists []. rewrite app_nil_r. repeat split; [ constructor | cbn; lia ].
  - destruct (invoke_fetches_once net c Hc st) as [[e ->] | [r [path ->]]]; cbn [snd self sent].
    + split; [ reflexivity | ].
      exists []. rewrite app_nil_r. repeat split; [ constructor | cbn; lia ].
    + split; [ reflexivity | ].
      exists [get_for (self st) path]. repeat split.
      * constructor; [ now exists path | constructor ].
      * cbn; lia.
Qed.

Lemma run_calls_frame net cs : forall st,
  self (run_calls net cs st) = self st
  /\ exists new,
      sent (run_calls net cs st) = (sent st ++ new)%list
      /\ built_from (self st) new.
Proof.
  induction cs as [ | c cs IH ]; intros st; cbn [run_calls].
  - split; [ reflexivity | ]. exists []. rewrite app_nil_r. split; [ reflexivity | constructor ].
  - destruct (invoke_frame net c st) as [Hself [new1 [Hsent [Hb1 _]]]].
    destruct (IH (snd (invoke net c st))) as [Hself' [new2 [Hsent' Hb2]]].
    rewrite Hself in Hself', Hb2. split; [ exact Hself' | ].
    exists (new1 ++ new2)%list. split.
    + rewrite Hsent', Hsent. now rewrite app_assoc.
    + apply Forall_app. split; assumption.
Qed.

(** X17. As the code stands, a facade call that returns has issued exactly
    one GET, built from the client's base URL and key, in every case but
    one: [team_matches] with neither a truthy event nor a truthy year, which
    returns [None] having issued none. No call, returning or raising, issues
    more than one. *)
Theorem facade_call_requests net c st :
  (forall v st',
      invoke net c st = (inr v, st') ->
      if unscoped c
      then st' = st /\ v = ONone
      else self st' = self st
           /\ exists path, sent st' = (sent st ++ [get_for (self st) path])%list)
  /\ (length (sent (snd (invoke net c st))) <= S (length (sent st)))%nat.
Proof.
  split.
  - intros v st' Hrun. destruct (unscoped c) eqn:Hc.
    + rewrite (invoke_unscoped net c st Hc) in Hrun.
      injection Hrun as <- <-. split; reflexivity.
    + destruct (invoke_fetches_once net c Hc st) as [[e He] | [r [path Hr]]].
      * rewrite He in Hrun. discriminate Hrun.
      * rewrite Hr in Hrun. injection Hrun as _ <-. cbn [self sent].
        split; [ reflexivity | now exists path ].
  - destruct (invoke_frame net c st) as [_ [new [-> [_ Hlen]]]].
    rewrite length_app. lia.
Qed.

Lemma facade_call_requests_witness :
  self (snd (invoke quiet_net (call_team (PInt 254) (PBool false)) fresh_client))
  = self fresh_client
  /\ exists path,
      sent (snd (invoke quiet_net (call_team (PInt 254) (PBool false)) fresh_client))
      = (sent fresh_client ++ [get_for (self fresh_client) path])%list.
Proof.
  apply (proj1 (facade_call_requests quiet_net (call_team (PInt 254) (PBool false))
                  fresh_client)
           (ORecord (wrap Team (JDict [])))).
  reflexivity.
Defined.

(** One instance: [team_matches(254)] on a fresh client returns without
    having issued a request. *)
Lemma issues_exactly_one_get_fails :
  ~ issues_exactly_one_get quiet_net
      (call_team_matches (PInt 254) PNone PNone (PBool false)) fresh_client.
Proof.
  intros H. destruct (H ONone fresh_client eq_refl) as [rq Hrq].
  cbn in Hrq. discriminate Hrq.
Qed.

(** C7. "Every facade call issues exactly one GET before returning" is
    broken by the code at [team_matches(t)], the call with [event] and
    [year] left at their defaults: control falls off the end of
    [if event: ... elif year: ...], so the call returns [None] (where the
    docstring promises a list of keys or [Match] objects) and the request
    log is the one it found, for every team, [keys] flag, service and
    client state. *)
Theorem team_matches_default_call_issues_nothing net t keys st :
  invoke net (call_team_matches t PNone PNone keys) st = (inr ONone, st)
  /\ sent (snd (invoke net (call_team_matches t PNone PNone keys) st)) = sent st
  /\ ~ issues_exactly_one_get net (call_team_matches t PNone PNone keys) st.
Proof.
  assert (Hrun : invoke net (call_team_matches t PNone PNone keys) st = (inr ONone, st))
    by reflexivity.
  split; [ exact Hrun | split ].
  - now rewrite Hrun.
  - intros H. destruct (H ONone st Hrun) as [rq Hrq].
    symmetry in Hrq. now apply app_one_neq in Hrq.
Qed.

(** C8. No facade method modifies the client session: after any call the
    stored key and base URL are those found before it, and every request
    the call issues carries that key in its auth header and extends that
    base URL. The same holds along any sequence of calls on a client that
    construction returned, whose key is the one it was constructed with. *)
Theorem client_session_immutable net :
  (forall c st,
      auth_key (self (snd (invoke net c st))) = auth_key (self st)
      /\ URL_PRE (self (snd (invoke net c st))) = URL_PRE (self st)
      /\ exists new,
          sent (snd (invoke net c st)) = (sent st ++ new)%list
          /\ built_from (self st) new)
  /\ (forall key history o log,
         new_TBA net key history = (inr o, log) ->
         o = client_of key
         /\ forall cs,
             self (run_calls net cs {| self := o; sent := log |}) = o
             /\ exists new,
                 sent (run_calls net cs {| self := o; sent := log |})
                 = (log ++ new)%list
                 /\ built_from (client_of key) new).
Proof.
  split.
  - intros c st. destruct (invoke_frame net c st) as [-> [new [Hsent [Hb _]]]].
    repeat split. now exists new.
  - intros key history o log Hnew.
    assert (Ho : o = client_of key).
    { rewrite new_TBA_cases in Hnew. injection Hnew as Hres _.
      destruct (net history _) as [j | f]; [ | discriminate Hres ].
      destruct j as [ | b | n | l | s | items | fields ]; try discriminate Hres.
      - destruct (existsb (is_str "Error") items); [ discriminate Hres | ].
        now injection Hres.
      - destruct (lookup "Error" fields); [ discriminate Hres | ].
        now injection Hres. }
    split; [ exact Ho | ]. intros cs. subst o.
    apply (run_calls_frame net cs {| self := client_of key; sent := log |}).
Qed.

Lemma client_session_immutable_witness :
  self (run_calls quiet_net
          [call_team (PInt 254) (PBool false); call_districts (PInt 2017)]
          {| self := client_of "token";
             sent := [get_for (client_of "token") "status"] |})
  = client_of "token".
Proof.
  apply (proj2 (client_session_immutable quiet_net) "token" []
           (client_of "token") [get_for (client_of "token") "status"] eq_refl).
Defined.

(** ** What a call returns or raises *)

Lemma fetch_raw_outcome net path st :
  fetch_raw net path st = outcome net st path (fun raw => inr (OJson raw)).
Proof.
  unfold fetch_raw, outcome, bind, _fetch, get_for.
  destruct (net (sent st) _); reflexivity.
Qed.

Lemma fetch_one_outcome net m path st :
  fetch_one net m path st = outcome net st path (fun raw => inr (ORecord (wrap m raw))).
Proof.
  unfold fetch_one, outcome, bind, _fetch, get_for.
  destruct (net (sent st) _); reflexivity.
Qed.

Lemma fetch_each_outcome net m path st :
  fetch_each net m path st = outcome net st path (wrap_each m).
Proof.
  unfold fetch_each, outcome, bind, _fetch, get_for.
  destruct (net (sent st) _) as [j | f]; [ | reflexivity ].
  destruct (wrap_each m j); reflexivity.
Qed.

Lemma status_outcome net st :
  bind (status net) (fun r => ret (ORecord r)) st
  = outcome net st "status" (fun raw => inr (ORecord (wrap Status raw))).
Proof.
  unfold status, outcome, bind, _fetch, get_for.
  destruct (net (sent st) _); reflexivity.
Qed.

(** Runs a method body down to its one use of the dispatcher. *)
Ltac to_outcome :=
  rewrite ?team_key_total;
  cbn [fmt format lift lift_map bind ret str first_char negb];
  first [ rewrite fetch_raw_outcome | rewrite fetch_one_outcome
        | rewrite fetch_each_outcome | rewrite status_outcome ];
  eexists; eexists; split; [ | reflexivity ]; constructor.

Ltac split_flags :=
  repeat match goal with
         | |- context [truthy ?v] => destruct (truthy v)
         | |- context [isdigit ?s] => destruct (isdigit s)
         | |- context [eq_str ?v ?s] => destruct (eq_str v s)
         end.

(** Every call that gets as far as the network is one request followed by
    one of the three shapings of the answer. *)
Lemma invoke_outcome net c st :
  unscoped c = false -> match_without_event c = false ->
  exists path k, shaping k /\ invoke net c st = outcome net st path k.
Proof.
  destruct c; cbn [invoke];
    unfold teams, team, team_events, team_awards, team_matches, team_years,
      team_media, team_robots, team_districts, team_social_media, events, event,
      event_alliances, event_district_points, event_insights, event_oprs,
      event_predictions, event_rankings, event_teams, event_awards,
      event_matches, districts, district_events, district_rankings,
      district_teams;
    cbn [unscoped match_without_event]; intros Hu Hm.
  all: try (revert Hu; split_flags; intros Hu; try discriminate Hu; to_outcome).
  (* match *)
  unfold match_. revert Hm.
  destruct (truthy key); [ intros _; to_outcome | ].
  destruct event0 as [ | b | n | [ | ch ev ] ]; cbn [negb]; try discriminate.
  intros _. cbn [first_char lift bind ret]. split_flags; to_outcome.
Qed.

Lemma invoke_match_without_event net c st :
  match_without_event c = true ->
  exists e, (e = TypeError \/ e = IndexError) /\ invoke net c st = (inl e, st).
Proof.
  destruct c; cbn [match_without_event]; try discriminate.
  cbn [invoke]. unfold match_.
  destruct event0 as [ | b | n | [ | ch ev ] ]; try discriminate;
    intros Hk; apply negb_true_iff in Hk; rewrite Hk;
    cbn [first_char lift bind raise];
    eexists; (split; [ | reflexivity ]); auto.
Qed.

Lemma shaping_raises k j e :
  shaping k -> k j = inl e -> e = TypeError.
Proof.
  intros Hk. destruct Hk as [ | m | m ]; try discriminate.
  unfold wrap_each, iterate.
  destruct j; cbn [lift_map]; intros H; try discriminate H; now injection H as <-.
Qed.

(** X1. On arguments that are [None], a [bool], an [int] or a [str],
    whatever a facade call raises is a [TypeError] or an [IndexError] of its
    own handling of the arguments and the body, or the failure of the
    transport or of the decoder let through as it came, whatever class of
    exception that failure is. No call raises the API-key error: a body
    carrying an [Error] field is data to every method after construction. *)
Theorem facade_raises_only net c st e :
  fst (invoke net c st) = inl e ->
  (e = TypeError \/ e = IndexError \/ exists f, e = Propagated f)
  /\ (forall msg, e <> APIKeyError msg).
Proof.
  intros Hraise.
  assert (H : e = TypeError \/ e = IndexError \/ exists f, e = Propagated f).
  { destruct (unscoped c) eqn:Hu.
    { rewrite (invoke_unscoped net c st Hu) in Hraise. discriminate Hraise. }
    destruct (match_without_event c) eqn:Hm.
    { destruct (invoke_match_without_event net c st Hm) as [e' [He' Hrun]].
      rewrite Hrun in Hraise. injection Hraise as <-. tauto. }
    destruct (invoke_outcome net c st Hu Hm) as [path [k [Hk Hrun]]].
    rewrite Hrun in Hraise. unfold outcome in Hraise. cbn [fst] in Hraise.
    destruct (net (sent st) _) as [j | f].
    - left. now apply (shaping_raises k j e Hk).
    - injection Hraise as <-. right; right. now exists f. }
  split; [ exact H | ].
  intros msg. destruct H as [-> | [-> | [f ->]]]; discriminate.
Qed.

Lemma facade_raises_only_witness :
  (Propagated TransportFailure = TypeError
   \/ Propagated TransportFailure = IndexError
   \/ exists f, Propagated TransportFailure = Propagated f)
  /\ (forall msg, Propagated TransportFailure <> APIKeyError msg).
Proof.
  apply (facade_raises_only failing_net (call_districts (PInt 2017)) fresh_client).
  reflexivity.
Defined.

(** X2. A call whose request the transport or the decoder fails on raises
    exactly that failure, and the failed request is the only one it made:
    nothing is retried and nothing is wrapped. *)
Theorem transport_failure_propagates net c st f :
  unscoped c = false -> match_without_event c = false ->
  (forall rq, net (sent st) rq = Failed f) ->
  fst (invoke net c st) = inl (Propagated f)
  /\ exists path,
      sent (snd (invoke net c st)) = (sent st ++ [get_for (self st) path])%list.
Proof.
  intros Hu Hm Hnet.
  destruct (invoke_outcome net c st Hu Hm) as [path [k [_ ->]]].
  unfold outcome. rewrite Hnet. cbn [fst snd sent].
  split; [ reflexivity | now exists path ].
Qed.

Lemma transport_failure_propagates_witness :
  fst (invoke failing_net (call_team (PInt 254) (PBool true)) fresh_client)
  = inl (Propagated TransportFailure)
  /\ exists path,
      sent (snd (invoke failing_net (call_team (PInt 254) (PBool true)) fresh_client))
      = (sent fresh_client ++ [get_for (self fresh_client) path])%list.
Proof.
  apply (transport_failure_propagates failing_net (call_team (PInt 254) (PBool true))
           fresh_client TransportFailure); reflexivity.
Defined.

Lemma fill_match_signature kwargs :
  fill match_signature kwargs
  = inr (map (fun p => match keyword (fst p) kwargs with
                       | Some v => v
                       | None => snd p
                       end)
           [("key", PNone); ("year", PNone); ("event", PNone); ("type", PStr "qm");
            ("number", PNone); ("round", PNone); ("simple", PBool false)]).
Proof.
  unfold match_signature. cbn [fill map fst snd].
  repeat match goal with
         | |- context [keyword ?n kwargs] => destruct (keyword n kwargs)
         end; reflexivity.
Qed.

(** X3. Raising before the network is reached. Once the arguments of a
    facade call are bound to the method's parameters, with values that are
    [None], a [bool], an [int] or a [str], the call raises without having
    issued a request exactly when it is [match()] in composed form (falsy
    key) with an event that has no first character: [IndexError] for the
    empty string, [TypeError] for [None] (the default), a [bool] or an
    [int]. A keyword call of [match()] raises without a request exactly when
    it names a parameter the method does not declare, or binds to such a
    call. Every other raise comes after the request. *)
Theorem raises_before_request net st :
  (forall c,
      (exists e st', invoke net c st = (inl e, st') /\ sent st' = sent st)
      <-> match_without_event c = true)
  /\ (forall kwargs,
         let arg name default :=
           match keyword name kwargs with Some v => v | None => default end in
         (exists e st',
             match_keywords net kwargs st = (inl e, st') /\ sent st' = sent st)
         <-> (forallb (declares match_signature) kwargs = false
              \/ match_without_event
                   (call_match (arg "key" PNone) (arg "year" PNone)
                      (arg "event" PNone) (arg "type" (PStr "qm"))
                      (arg "number" PNone) (arg "round" PNone)
                      (arg "simple" (PBool false))) = true))
  /\ (forall key year type number round simple,
         truthy key = false ->
         match_ net key year (PStr "") type number round simple st = (inl IndexError, st))
  /\ (forall key year event type number round simple,
         truthy key = false ->
         match event with PStr _ => false | _ => true end = true ->
         match_ net key year event type number round simple st = (inl TypeError, st)).
Proof.
  assert (Hcalls : forall c,
             (exists e st', invoke net c st = (inl e, st') /\ sent st' = sent st)
             <-> match_without_event c = true).
  { intros c. split.
    - intros [e [st' [Hrun Hsent]]].
      destruct (match_without_event c) eqn:Hm; [ reflexivity | exfalso ].
      destruct (unscoped c) eqn:Hu.
      { rewrite (invoke_unscoped net c st Hu) in Hrun. discriminate Hrun. }
      destruct (invoke_outcome net c st Hu Hm) as [path [k [_ Hout]]].
      rewrite Hout in Hrun. unfold outcome in Hrun. injection Hrun as _ <-.
      cbn [sent] in Hsent. now apply app_one_neq in Hsent.
    - intros Hm. destruct (invoke_match_without_event net c st Hm) as [e [_ Hrun]].
      exists e, st. split; [ exact Hrun | reflexivity ]. }
  split; [ exact Hcalls | split; [ | split ] ].
  - intros kwargs arg. unfold match_keywords, bind_keywords.
    destruct (forallb (declares match_signature) kwargs).
    + rewrite fill_match_signature. cbn [map fst snd lift bind ret].
      fold (arg "key" PNone) (arg "year" PNone) (arg "event" PNone)
        (arg "type" (PStr "qm")) (arg "number" PNone) (arg "round" PNone)
        (arg "simple" (PBool false)).
      rewrite <- (Hcalls (call_match _ _ _ _ _ _ _)). cbn [invoke].
      split; [ intros H; right; exact H | intros [H | H]; [ discriminate H | exact H ] ].
    + split; [ intros _; now left | intros _ ].
      exists TypeError, st. split; reflexivity.
  - intros key year type number round simple Hk. unfold match_. now rewrite Hk.
  - intros key year ev type number round simple Hk Hev. unfold match_. rewrite Hk.
    destruct ev as [ | b | n | s ]; try reflexivity. discriminate Hev.
Qed.

Lemma raises_before_request_witness :
  match_ quiet_net PNone (PInt 2017) (PStr "") (PStr "qm") (PInt 2) PNone (PBool false)
    fresh_client = (inl IndexError, fresh_client)
  /\ match_ quiet_net PNone (PInt 2017) PNone (PStr "qm") (PInt 2) PNone (PBool false)
       fresh_client = (inl TypeError, fresh_client).
Proof.
  split.
  - apply (proj1 (proj2 (proj2 (raises_before_request quiet_net fresh_client)))).
    reflexivity.
  - apply (proj2 (proj2 (proj2 (raises_before_request quiet_net fresh_client))));
      reflexivity.
Defined.


(** ** Arguments a method ignores, and arguments that are the same *)

(** X4. With a truthy [key], [match()] requests [match/{key}] and nothing
    else matters: year, event, type, number, round and simple are not read,
    so even a missing event raises nothing. *)
Theorem match_direct_key net key st :
  truthy key = true ->
  forall year event type number round simple,
    requests (match_ net key year event type number round simple) st
      ("match/" ++ str key)
    /\ match_ net key year event type number round simple st
       = match_ net key PNone PNone (PStr "qm") PNone PNone (PBool false) st.
Proof.
  intros Hk year ev type number round simple.
  unfold requests, match_. rewrite Hk. split; [ | reflexivity ].
  cbn [fmt format lift lift_map bind ret].
  now rewrite fetch_one_state, append_empty_r.
Qed.

Lemma match_direct_key_witness :
  requests (match_ quiet_net (PStr "2017chcmp_qm2") PNone PNone (PStr "sf") PNone
              (PInt 3) (PBool true)) fresh_client
    ("match/" ++ str (PStr "2017chcmp_qm2"))
  /\ match_ quiet_net (PStr "2017chcmp_qm2") PNone PNone (PStr "sf") PNone (PInt 3)
       (PBool true) fresh_client
     = match_ quiet_net (PStr "2017chcmp_qm2") PNone PNone (PStr "qm") PNone PNone
         (PBool false) fresh_client.
Proof.
  apply (match_direct_key quiet_net (PStr "2017chcmp_qm2") fresh_client).
  reflexivity.
Defined.

(** X5. Every team-scoped method behaves the same on a team number [n] and
    on the key string [frc<n>]: the same request, the same result. *)
Theorem team_number_or_key net c n st :
  invoke net (with_team (PInt n) c) st
  = invoke net (with_team (PStr ("frc" ++ str_of_int n)) c) st.
Proof.
  destruct c; cbn [with_team invoke]; try reflexivity;
    unfold team, team_events, team_awards, team_matches, team_years, team_media,
      team_robots, team_districts;
    rewrite !team_key_total; reflexivity.
Qed.

(** X6. The key normaliser keeps team numbers apart: two integers with the
    same key are the same integer. *)
Theorem team_key_injective (n m : Z) :
  team_key (PInt n) = team_key (PInt m) -> n = m.
Proof.
  rewrite !team_key_total. cbn [str]. intros H. injection H as H.
  apply (f_equal int_of_str) in H.
  rewrite !int_of_str_of_int in H. now injection H.
Qed.

Lemma team_key_injective_witness : 254 = 254.
Proof. apply (team_key_injective 254 254). reflexivity. Defined.

(** X7. A falsy year is no year: in the four methods that test [if year:]
    ([teams], [team_events], [team_awards], [team_matches]) passing [0],
    the empty string or [False] behaves exactly as passing [None], so year
    [0] never appears in a path. *)
Theorem falsy_year_is_no_year net c y st :
  truthy y = false ->
  invoke net (with_year y c) st = invoke net (with_year PNone c) st.
Proof.
  intros Hy. destruct c; cbn [with_year invoke]; try reflexivity;
    unfold teams, team_events, team_awards, team_matches;
    rewrite Hy; reflexivity.
Qed.

Lemma falsy_year_is_no_year_witness :
  invoke quiet_net (with_year (PInt 0) (call_teams (PInt 1) PNone (PBool false)))
    fresh_client
  = invoke quiet_net (with_year PNone (call_teams (PInt 1) PNone (PBool false)))
      fresh_client.
Proof.
  apply (falsy_year_is_no_year quiet_net (call_teams (PInt 1) PNone (PBool false))
           (PInt 0) fresh_client).
  reflexivity.
Defined.

(** ** The result, by the shape of the answer *)

Ltac unfold_methods :=
  unfold teams, team, team_events, team_awards, team_matches, team_years,
    team_media, team_robots, team_districts, team_social_media, events, event,
    event_alliances, event_district_points, event_insights, event_oprs,
    event_predictions, event_rankings, event_teams, event_awards,
    event_matches, districts, district_events, district_rankings,
    district_teams.

(** Runs a method body to its result under a service that answers [j]. *)
Ltac run_with Hans :=
  rewrite ?team_key_total;
  cbn [fmt format lift lift_map bind ret str first_char negb];
  first [ rewrite fetch_raw_outcome | rewrite fetch_one_outcome
        | rewrite fetch_each_outcome | rewrite status_outcome ];
  unfold outcome; rewrite Hans; cbn [fst].

(** The five kinds of call leave no call out. *)
Lemma call_kinds_exhaustive c :
  unscoped c || match_without_event c || returns_body c || returns_record c
  || returns_records c = true.
Proof.
  destruct c; cbn [unscoped match_without_event returns_body returns_record
                     returns_records];
    split_flags; try reflexivity.
  all: destruct (match _ with PNone => _ | _ => _ end); reflexivity.
Qed.

(** X8. The key-list forms ([keys] true in [teams], [team_events],
    [team_matches], [event_teams], [event_matches], [district_events],
    [district_teams]), [events] with [keys] or [simple], and [team_years]
    return the decoded body exactly as the service sent it, wrapped in
    nothing and checked for nothing. *)
Theorem body_returned_as_is net c st j :
  returns_body c = true -> answers net st j ->
  fst (invoke net c st) = inr (OJson j).
Proof.
  intros Hc Hans. revert Hc.
  destruct c; cbn [returns_body invoke]; try discriminate; unfold_methods;
    split_flags; intros Hc; try discriminate Hc; run_with Hans; reflexivity.
Qed.

Lemma body_returned_as_is_witness :
  fst (invoke quiet_net (call_events (PInt 2017) (PBool false) (PBool true))
         fresh_client)
  = inr (OJson (JDict [])).
Proof.
  apply (body_returned_as_is quiet_net
           (call_events (PInt 2017) (PBool false) (PBool true)) fresh_client (JDict [])).
  - reflexivity.
  - intros rq. reflexivity.
Defined.

(** X9. The single-resource methods ([status], [team], [event], the five
    event detail methods, and [match] whenever it gets to its request)
    return one record backed by the decoded body unchanged, whatever the
    body is: a mapping with an [Error] field comes back as a record like
    any other. *)
Theorem record_wraps_body net c st j :
  returns_record c = true -> answers net st j ->
  exists m, fst (invoke net c st) = inr (ORecord (wrap m j)).
Proof.
  intros Hc Hans. revert Hc.
  destruct c; cbn [returns_record match_without_event invoke];
    try discriminate; unfold_methods;
    try (split_flags; intros _; run_with Hans; eexists; reflexivity).
  unfold match_. destruct (truthy key).
  - intros _. run_with Hans. eexists; reflexivity.
  - destruct event0 as [ | b | n | [ | ch ev ] ]; cbn [negb]; try discriminate.
    intros _. cbn [first_char lift bind ret]. split_flags;
      run_with Hans; eexists; reflexivity.
Qed.

Lemma record_wraps_body_witness :
  exists m,
    fst (invoke rejecting_net (call_event (PStr "2017chcmp") (PBool true)) fresh_client)
    = inr (ORecord (wrap m (JDict [("Error", JStr "X-TBA-Auth-Key is invalid")]))).
Proof.
  apply (record_wraps_body rejecting_net (call_event (PStr "2017chcmp") (PBool true))
           fresh_client).
  - reflexivity.
  - intros rq. reflexivity.
Defined.

(** X10. The list methods build one record per item of the body: a list
    body gives the records of its items in order, each backed by its item
    unchanged; a body that cannot be iterated ([null], a number, a boolean)
    raises [TypeError], and the request has been made by then. *)
Theorem records_follow_items net c st :
  returns_records c = true ->
  (forall items,
      answers net st (JList items) ->
      exists m, fst (invoke net c st) = inr (ORecords (map (wrap m) items)))
  /\ (forall j,
         answers net st j -> iterate j = inl TypeError ->
         fst (invoke net c st) = inl TypeError
         /\ exists path,
             sent (snd (invoke net c st))
             = (sent st ++ [get_for (self st) path])%list).
Proof.
  intros Hc. split.
  - intros items Hans. revert Hc.
    destruct c; cbn [returns_records invoke]; try discriminate; unfold_methods;
      split_flags; intros Hc; try discriminate Hc; run_with Hans;
      eexists; reflexivity.
  - intros j Hans Hj. split.
    + revert Hc.
      destruct c; cbn [returns_records invoke]; try discriminate; unfold_methods;
        split_flags; intros Hc; try discriminate Hc; run_with Hans;
        unfold wrap_each; rewrite Hj; reflexivity.
    + assert (Hu : unscoped c = false).
      { revert Hc. destruct c; cbn [returns_records unscoped]; try reflexivity.
        split_flags; try reflexivity; discriminate. }
      assert (Hm : match_without_event c = false).
      { revert Hc. destruct c; cbn [returns_records match_without_event];
          try reflexivity; discriminate. }
      destruct (invoke_outcome net c st Hu Hm) as [path [k [_ ->]]].
      exists path. reflexivity.
Qed.

Lemma records_follow_items_witness :
  (exists m,
      fst (invoke (fun _ _ => Decoded (JList [JDict []; JNull]))
             (call_team_robots (PInt 254)) fresh_client)
      = inr (ORecords (map (wrap m) [JDict []; JNull])))
  /\ fst (invoke (fun _ _ => Decoded JNull) (call_districts (PInt 2017)) fresh_client)
     = inl TypeError.
Proof.
  split.
  - apply (proj1 (records_follow_items (fun _ _ => Decoded (JList [JDict []; JNull]))
                    (call_team_robots (PInt 254)) fresh_client eq_refl)).
    intros rq. reflexivity.
  - apply (proj2 (records_follow_items (fun _ _ => Decoded JNull)
                    (call_districts (PInt 2017)) fresh_client eq_refl) JNull).
    + intros rq. reflexivity.
    + reflexivity.
Defined.

(** ** Sessions *)

(** X11. Along any sequence of calls the request log only grows, and by at
    most one request per call: [n] calls never cost more than [n] round
    trips, and nothing sent earlier is forgotten or reordered. *)
Theorem session_request_bound net cs : forall st,
  exists new,
    sent (run_calls net cs st) = (sent st ++ new)%list
    /\ (length new <= length cs)%nat.
Proof.
  induction cs as [ | c cs IH ]; intros st; cbn [run_calls].
  - exists []. now rewrite app_nil_r.
  - destruct (invoke_frame net c st) as [_ [new1 [Hsent [_ Hlen]]]].
    destruct (IH (snd (invoke net c st))) as [new2 [Hsent' Hlen']].
    exists (new1 ++ new2)%list. split.
    + now rewrite Hsent', Hsent, app_assoc.
    + rewrite length_app. cbn [length]. lia.
Qed.

(** ** Flag precedence in [events] *)

(** X12. In [events] the [keys] flag wins over [simple]: the path is
    [events/{year}/keys] whenever [keys] is truthy, [events/{year}/simple]
    when only [simple] is, and [events/{year}] otherwise; the year itself is
    never tested, so year [0] is requested as [events/0]. *)
Theorem events_keys_over_simple net year keys simple st :
  requests (events net year keys simple) st
    ("events/" ++ str year
       ++ (if truthy keys then "/keys" else if truthy simple then "/simple" else ""))
  /\ (truthy keys = true ->
      events net year keys simple st = events net year keys (PBool false) st).
Proof.
  unfold requests, events. split.
  - destruct (truthy keys), (truthy simple);
      cbn [fmt format lift lift_map bind ret];
      rewrite ?fetch_raw_state, ?fetch_each_state, ?append_empty_r; reflexivity.
  - intros ->. reflexivity.
Qed.

Lemma events_keys_over_simple_witness :
  events quiet_net (PInt 2017) (PBool true) (PBool true) fresh_client
  = events quiet_net (PInt 2017) (PBool true) (PBool false) fresh_client.
Proof.
  apply (proj2 (events_keys_over_simple quiet_net (PInt 2017) (PBool true) (PBool true)
                  fresh_client)).
  reflexivity.
Defined.

(** ** Keyword calls of [match] and the example script *)

(** X13. A keyword call of [match()] either names a parameter the method
    does not have, and then raises [TypeError] before anything is requested,
    or is the call of [match] in which every parameter has its keyword's
    value or else its default: no key, no year, no event, type ['qm'], no
    number, no round, [simple] false. *)
Theorem match_keywords_binding net kwargs st :
  (forallb (declares match_signature) kwargs = false ->
   match_keywords net kwargs st = (inl TypeError, st))
  /\ (forallb (declares match_signature) kwargs = true ->
      let arg name default :=
        match keyword name kwargs with Some v => v | None => default end in
      match_keywords net kwargs st
      = match_ net (arg "key" PNone) (arg "year" PNone) (arg "event" PNone)
          (arg "type" (PStr "qm")) (arg "number" PNone) (arg "round" PNone)
          (arg "simple" (PBool false)) st).
Proof.
  unfold match_keywords, bind_keywords. split; intros ->.
  - reflexivity.
  - rewrite fill_match_signature. reflexivity.
Qed.

Lemma match_keywords_binding_witness :
  match_keywords quiet_net
    [("year", PInt 2017); ("event", PStr "chcmp"); ("type", PStr "qm"); ("match", PInt 2)]
    fresh_client
  = (inl TypeError, fresh_client)
  /\ match_keywords quiet_net
       [("year", PInt 2017); ("event", PStr "chcmp"); ("number", PInt 2)] fresh_client
     = match_ quiet_net PNone (PInt 2017) (PStr "chcmp") (PStr "qm") (PInt 2) PNone
         (PBool false) fresh_client.
Proof.
  split.
  - apply (proj1 (match_keywords_binding quiet_net
                    [("year", PInt 2017); ("event", PStr "chcmp"); ("type", PStr "qm");
                     ("match", PInt 2)] fresh_client)).
    reflexivity.
  - apply (proj2 (match_keywords_binding quiet_net
                    [("year", PInt 2017); ("event", PStr "chcmp"); ("number", PInt 2)]
                    fresh_client)).
    reflexivity.
Defined.

Lemma example_match_call_raises net (k : pyobj -> M unit) st :
  bind (match_keywords net
          [("year", PInt 2017); ("event", PStr "chcmp"); ("type", PStr "qm");
           ("match", PInt 2)]) k st
  = (inl TypeError, st).
Proof. reflexivity. Qed.

Lemma new_TBA_log net key history :
  snd (new_TBA net key history)
  = (history ++ [get_for (client_of key) "status"])%list.
Proof. now rewrite new_TBA_cases. Qed.

Lemma new_TBA_client net key history o log :
  new_TBA net key history = (inr o, log) -> o = client_of key.
Proof.
  rewrite new_TBA_cases. intros H. injection H as Hres _.
  destruct (net history _) as [j | f]; [ | discriminate Hres ].
  destruct j as [ | b | n | l | s | items | fields ]; try discriminate Hres.
  - destruct (existsb (is_str "Error") items); [ discriminate Hres | ].
    now injection Hres.
  - destruct (lookup "Error" fields); [ discriminate Hres | ].
    now injection Hres.
Qed.

(** The three calls of the script after construction, run to the end:
    [report] is not in what comes out. *)
Lemma example_calls net (report : pyobj -> pyobj -> pyobj -> M unit) st0 :
  let st1 := {| self := self st0;
                sent := (sent st0 ++ [get_for (self st0) "team/frc254"])%list |} in
  let st2 := {| self := self st0;
                sent := (sent st1 ++ [get_for (self st0) "team/frc1418/districts"])%list |} in
  (team <- team net (PInt 254) (PBool false) ;;
   districts <- team_districts net (PInt 1418) ;;
   match_ <- match_keywords net
               [("year", PInt 2017); ("event", PStr "chcmp");
                ("type", PStr "qm"); ("match", PInt 2)] ;;
   report team districts match_) st0
  = match net (sent st0) (get_for (self st0) "team/frc254") with
    | Failed f => (inl (Propagated f), st1)
    | Decoded _ =>
        match net (sent st1) (get_for (self st0) "team/frc1418/districts") with
        | Failed f => (inl (Propagated f), st2)
        | Decoded j =>
            match wrap_each District j with
            | inl e => (inl e, st2)
            | inr _ => (inl TypeError, st2)
            end
        end
    end.
Proof.
  intros st1 st2.
  assert (Hteam : team net (PInt 254) (PBool false) st0
                  = outcome net st0 "team/frc254"
                      (fun raw => inr (ORecord (wrap Team raw)))).
  { unfold team. cbn [truthy team_key format lift_map str lift bind ret fmt].
    apply fetch_one_outcome. }
  assert (Hdist : forall st, team_districts net (PInt 1418) st
                  = outcome net st "team/frc1418/districts" (wrap_each District)).
  { intros st. unfold team_districts.
    cbn [team_key format lift_map str lift bind ret fmt].
    apply fetch_each_outcome. }
  unfold bind at 1. rewrite Hteam. unfold outcome. fold st1.
  destruct (net (sent st0) _) as [j1 | f1]; [ | reflexivity ].
  unfold bind at 1. rewrite Hdist. unfold outcome. cbn [self]. fold st2.
  destruct (net (sent st1) _) as [j2 | f2]; [ | reflexivity ].
  destruct (wrap_each District j2); [ reflexivity | ].
  apply example_match_call_raises.
Qed.

(** X14. src/example.py never reaches its [print] statements, whatever the
    service answers: the script always ends in an exception, having made at
    least the status request and at most three requests, and what the
    [print] statements would do has no part in the outcome. When the service
    answers every request with a mapping that has no [Error] field, the
    exception is the [TypeError] of [match(..., match=2)], a keyword
    [match()] does not have, raised after exactly the status, team and
    districts requests. *)
Theorem example_never_completes net report history :
  (exists e, fst (example net report history) = inl e)
  /\ (forall report', example net report' history = example net report history)
  /\ (exists new,
         snd (example net report history) = (history ++ new)%list
         /\ (1 <= length new <= 3)%nat)
  /\ (forall fields,
         (forall log rq, net log rq = Decoded (JDict fields)) ->
         has_key "Error" fields = false ->
         fst (example net report history) = inl TypeError
         /\ snd (example net report history)
            = (history ++ [get_for (client_of example_key) "status";
                           get_for (client_of example_key) "team/frc254";
                           get_for (client_of example_key) "team/frc1418/districts"])%list).
Proof.
  split; [ | split; [ intros report'; unfold example;
                      destruct (new_TBA net example_key history) as [[e | tba] log];
                      [ reflexivity | cbv zeta; now rewrite !example_calls ] | ] ].
  all: unfold example.
  all: pose proof (new_TBA_log net example_key history) as Hlog.
  all: pose proof (new_TBA_cases net example_key history) as Hcases.
  all: pose proof (new_TBA_client net example_key history) as Hclient.
  all: cbn zeta in Hcases.
  all: destruct (new_TBA net example_key history) as [[e | tba] log].
  - now exists e.
  - clear Hlog Hcases Hclient. cbv zeta. rewrite example_calls.
    destruct (net _ (get_for _ "team/frc254")) as [j1 | f1];
      [ | eexists; reflexivity ].
    destruct (net _ (get_for _ "team/frc1418/districts")) as [j2 | f2];
      [ | eexists; reflexivity ].
    destruct (wrap_each District j2); eexists; reflexivity.
  - cbn [fst snd] in *. split.
    + eexists. split; [ exact Hlog | cbn; lia ].
    + intros fields Hnet Hk. exfalso.
      injection Hcases as Hres _. rewrite Hnet in Hres.
      unfold has_key in Hk. destruct (lookup "Error" fields); discriminate.
  - cbn [snd] in Hlog. subst log.
    pose proof (Hclient tba _ eq_refl) as ->. clear Hclient Hcases.
    set (tba := client_of example_key).
    set (st0 := {| self := tba; sent := _ |}).
    cbv zeta. rewrite example_calls.
    set (st1 := {| self := self st0;
                   sent := (sent st0 ++ [get_for (self st0) "team/frc254"])%list |}).
    set (st2 := {| self := self st0;
                   sent := (sent st1 ++ [get_for (self st0) "team/frc1418/districts"])%list |}).
    assert (H1 : sent st1 = (history ++ [get_for tba "status"; get_for tba "team/frc254"])%list).
    { unfold st1, st0. cbn [sent self]. now rewrite <- app_assoc. }
    assert (H2 : sent st2 = (history ++ [get_for tba "status"; get_for tba "team/frc254";
                                         get_for tba "team/frc1418/districts"])%list).
    { unfold st2. cbn [sent]. rewrite H1. unfold st0. cbn [self].
      now rewrite <- app_assoc. }
    destruct (net (sent st0) _) as [j1 | f1] eqn:Hn1.
    + destruct (net (sent st1) _) as [j2 | f2] eqn:Hn2.
      * destruct (wrap_each District j2) as [e2 | d] eqn:Hw; cbn [fst snd].
        -- split.
           ++ eexists. split; [ exact H2 | cbn; lia ].
           ++ intros fields Hnet Hk. rewrite Hnet in Hn2. injection Hn2 as <-.
              discriminate Hw.
        -- split.
           ++ eexists. split; [ exact H2 | cbn; lia ].
           ++ intros fields Hnet Hk. split; [ reflexivity | exact H2 ].
      * cbn [fst snd]. split.
        -- eexists. split; [ exact H2 | cbn; lia ].
        -- intros fields Hnet Hk. rewrite Hnet in Hn2. discriminate Hn2.
    + cbn [fst snd]. split.
      * eexists. split; [ exact H1 | cbn; lia ].
      * intros fields Hnet Hk. rewrite Hnet in Hn1. discriminate Hn1.
Qed.

Lemma example_never_completes_witness :
  fst (example quiet_net (fun _ _ _ => ret tt) []) = inl TypeError.
Proof.
  apply (proj2 (proj2 (proj2 (example_never_completes quiet_net (fun _ _ _ => ret tt) [])))
           []).
  - intros log rq. reflexivity.
  - reflexivity.
Defined.

(** ** The paths of the remaining endpoints *)

Ltac path_of_body :=
  unfold requests; unfold_methods;
  rewrite ?team_key_total;
  split_flags;
  cbn [fmt format lift lift_map bind ret str];
  rewrite ?fetch_raw_state, ?fetch_one_state, ?fetch_each_state, ?append_empty_r;
  reflexivity.

(** X15. The team-scoped methods request, for the normalised key [k] of
    their team argument: [team/k[/simple]], [team/k/events[/year][/keys]]
    (the year after [events]), [team/k/awards[/year]] when no event is
    given, [team/k/matches/year[/keys]] when only a year is given,
    [team/k/years_participated], [team/k/media/year] (the year formatted
    whatever it is, [None] included), [team/k/robots] and
    [team/k/districts]. *)
Theorem team_scoped_paths net st t k :
  team_key t = inr k ->
  (forall simple,
      requests (team net t simple) st
        ("team/" ++ k ++ (if truthy simple then "/simple" else "")))
  /\ (forall year keys,
         requests (team_events net t year keys) st
           ("team/" ++ k ++ "/events"
              ++ (if truthy year then "/" ++ str year else "")
              ++ (if truthy keys then "/keys" else "")))
  /\ (forall year event,
         truthy event = false ->
         requests (team_awards net t year event) st
           ("team/" ++ k ++ "/awards"
              ++ (if truthy year then "/" ++ str year else "")))
  /\ (forall event year keys,
         truthy event = false -> truthy year = true ->
         requests (team_matches net t event year keys) st
           ("team/" ++ k ++ "/matches/" ++ str year
              ++ (if truthy keys then "/keys" else "")))
  /\ requests (team_years net t) st ("team/" ++ k ++ "/years_participated")
  /\ (forall year,
         requests (team_media net t year) st ("team/" ++ k ++ "/media/" ++ str year))
  /\ requests (team_robots net t) st ("team/" ++ k ++ "/robots")
  /\ requests (team_districts net t) st ("team/" ++ k ++ "/districts").
Proof.
  intros Hk. rewrite team_key_total in Hk. injection Hk as <-.
  repeat split; intros; try path_of_body.
  - unfold requests, team_awards. rewrite H. path_of_body.
  - unfold requests, team_matches. rewrite H, H0. path_of_body.
Qed.

Lemma team_scoped_paths_witness :
  requests (team_events quiet_net (PInt 254) (PInt 2017) (PBool true)) fresh_client
    ("team/" ++ "frc254" ++ "/events"
       ++ (if truthy (PInt 2017) then "/" ++ str (PInt 2017) else "")
       ++ (if truthy (PBool true) then "/keys" else ""))
  /\ requests (team_matches quiet_net (PInt 254) PNone (PInt 2017) (PBool false))
       fresh_client
       ("team/" ++ "frc254" ++ "/matches/" ++ str (PInt 2017)
          ++ (if truthy (PBool false) then "/keys" else "")).
Proof.
  pose proof (team_scoped_paths quiet_net fresh_client (PInt 254) "frc254" eq_refl)
    as [_ [Hevents [_ [Hmatches _]]]].
  split.
  - apply Hevents.
  - apply Hmatches; reflexivity.
Defined.

(** X16. The event and district methods request [event/e[/simple]],
    [event/e/<detail>] for each of alliances, district_points, insights,
    oprs, predictions, rankings and awards, [event/e/teams[/keys]],
    [event/e/matches[/keys]], [districts/year],
    [district/d/events[/keys]], [district/d/rankings] and
    [district/d/year/teams[/keys]] (district before year), each argument
    formatted as it is with nothing tested, escaped or validated. *)
Theorem event_district_paths net st :
  (forall e simple,
      requests (event net e simple) st
        ("event/" ++ str e ++ (if truthy simple then "/simple" else "")))
  /\ (forall e,
         requests (event_alliances net e) st ("event/" ++ str e ++ "/alliances")
         /\ requests (event_district_points net e) st
              ("event/" ++ str e ++ "/district_points")
         /\ requests (event_insights net e) st ("event/" ++ str e ++ "/insights")
         /\ requests (event_oprs net e) st ("event/" ++ str e ++ "/oprs")
         /\ requests (event_predictions net e) st ("event/" ++ str e ++ "/predictions")
         /\ requests (event_rankings net e) st ("event/" ++ str e ++ "/rankings")
         /\ requests (event_awards net e) st ("event/" ++ str e ++ "/awards"))
  /\ (forall e keys,
         requests (event_teams net e keys) st
           ("event/" ++ str e ++ "/teams" ++ (if truthy keys then "/keys" else ""))
         /\ requests (event_matches net e keys) st
              ("event/" ++ str e ++ "/matches" ++ (if truthy keys then "/keys" else "")))
  /\ (forall year, requests (districts net year) st ("districts/" ++ str year))
  /\ (forall d keys,
         requests (district_events net d keys) st
           ("district/" ++ str d ++ "/events" ++ (if truthy keys then "/keys" else "")))
  /\ (forall d, requests (district_rankings net d) st ("district/" ++ str d ++ "/rankings"))
  /\ (forall d year keys,
         requests (district_teams net d year keys) st
           ("district/" ++ str d ++ "/" ++ str year ++ "/teams"
              ++ (if truthy keys then "/keys" else ""))).
Proof.
  repeat split; intros; path_of_body.
Qed.
